(** * egui-resources: the pixel bridge, the fill resize and the resource facade

    Shallow embedding of [src/lib.rs] (egui-resources 0.4.0) together with the
    parts of its dependencies ([egui]/[ecolor] for [Color32] and [ColorImage],
    [image] for [ImageBuffer], [DynamicImage] and [imageops]) that decide what
    the functions of [lib.rs] do.

    Conventions.
    - Rust integers ([u8], [u32], [usize]) are [Z]; an [as u32] cast is written
      out as reduction modulo [2^32].
    - A Rust panic (index out of bounds, failed [assert_eq!]) is [None] in the
      [option] result of the function that can panic.
    - The floating-point parts of the dependencies that no claim decides
      exactly (the gamma-space premultiplication of egui for an alpha strictly
      between 0 and 255, the weighted kernels of [image] other than
      [Nearest], and the gradient of [ColorImage::example]) are the fields of
      a record [FloatPaths]; every theorem quantifies over it.
    - The [f64]/[f32] arithmetic of [resize_dimensions] and of the nearest
      sampling window is computed exactly over the rationals (as integer
      fractions); allocation failure is not modelled. *)

From Stdlib Require Import ZArith Lia.
From Stdlib Require Import Ascii.
From stdpp Require Import base list gmap strings.

Open Scope Z_scope.

(* ------------------------------------------------------------------ *)
(** ** Pixels and images *)

(** [ecolor::Color32] (four bytes, stored premultiplied) and
    [image::Rgba<u8>] (four bytes, unmultiplied) have the same shape: four
    bytes in the order R, G, B, A. *)
Record Rgba8 := mkRgba8 { px_r : Z; px_g : Z; px_b : Z; px_a : Z }.

Definition byte_ok (v : Z) : Prop := 0 <= v < 256.

Definition rgba8_ok (c : Rgba8) : Prop :=
  byte_ok (px_r c) /\ byte_ok (px_g c) /\ byte_ok (px_b c) /\ byte_ok (px_a c).

(** [Color32::TRANSPARENT] *)
Definition transparent : Rgba8 := mkRgba8 0 0 0 0.

(** The four bytes of one pixel, in memory order. *)
Definition rgba_bytes (c : Rgba8) : list Z := [px_r c; px_g c; px_b c; px_a c].

(** [egui::ColorImage { size: [usize; 2], pixels: Vec<Color32> }] *)
Record ColorImage := mkColorImage { size : Z * Z; pixels : list Rgba8 }.

Definition width (c : ColorImage) : Z := fst (size c).
Definition height (c : ColorImage) : Z := snd (size c).

(** A well-formed [ColorImage]: one pixel per cell, and the pixel vector fits
    in a Rust allocation ([isize::MAX] bytes). *)
Definition valid_color_image (c : ColorImage) : Prop :=
  0 <= width c /\ 0 <= height c /\
  Z.of_nat (length (pixels c)) = width c * height c /\
  width c * height c * 4 < 2 ^ 63 /\
  Forall rgba8_ok (pixels c).

(** [image::RgbaImage = ImageBuffer<Rgba<u8>, Vec<u8>>] *)
Record RgbaImage := mkRgbaImage { img_width : Z; img_height : Z; img_data : list Z }.

(** [image::DynamicImage]; every image handled here is [ImageRgba8]. *)
Inductive DynamicImage := ImageRgba8 (im : RgbaImage).

Definition into_rgba8 (d : DynamicImage) : RgbaImage :=
  match d with ImageRgba8 im => im end.

Definition dims (d : DynamicImage) : Z * Z :=
  (img_width (into_rgba8 d), img_height (into_rgba8 d)).

(** [image::imageops::FilterType] *)
Inductive FilterType := Nearest | Triangle | CatmullRom | Gaussian | Lanczos3.

Definition u32_max : Z := 2 ^ 32 - 1.

(** [x as u32] for a [usize] [x] *)
Definition as_u32 (x : Z) : Z := x mod 2 ^ 32.

(** [0..n] as a list *)
Definition zrange (n : Z) : list Z := map Z.of_nat (seq 0 (Z.to_nat n)).

(** [ImageBuffer::get_pixel(x, y)]; every call below is in bounds. *)
Definition get_pixel (im : RgbaImage) (x y : Z) : Rgba8 :=
  let i := Z.to_nat ((y * img_width im + x) * 4) in
  mkRgba8 (nth i (img_data im) 0) (nth (S i) (img_data im) 0)
          (nth (S (S i)) (img_data im) 0) (nth (S (S (S i))) (img_data im) 0).

(** An image buffer of [w] x [h] pixels, filled row by row by [f x y]
    ([ImageBuffer::from_fn], and the [put_pixel] loops of [imageops]). *)
Definition from_fn (w h : Z) (f : Z -> Z -> Rgba8) : RgbaImage :=
  mkRgbaImage w h
    (flat_map (fun y => flat_map (fun x => rgba_bytes (f x y)) (zrange w)) (zrange h)).

(** [ImageBuffer::new(w, h)]: all bytes zero. *)
Definition rgba_image_new (w h : Z) : RgbaImage :=
  mkRgbaImage w h (repeat 0 (Z.to_nat (w * h * 4))).

(** The floating-point parts of the dependencies (see the header). *)
Record FloatPaths := {
  (** [Color32::from_rgba_unmultiplied(r, g, b, a)] for [0 < a < 255]:
      linear-space premultiplication with gamma conversions in [f32] *)
  gamma_premultiply : Z -> Z -> Z -> Z -> Rgba8;
  (** the pixel [(x, y)] of [imageops::resize(src, nw, nh, filter)] for a
      filter other than [Nearest] *)
  weighted_sample : FilterType -> RgbaImage -> Z -> Z -> Z -> Z -> Rgba8;
  (** [ColorImage::example()] *)
  color_image_example : ColorImage
}.

Section Bridge.
Context (fp : FloatPaths).

(** [Color32::from_rgba_unmultiplied] (ecolor) *)
Definition color32_from_rgba_unmultiplied (r g b a : Z) : Rgba8 :=
  if a =? 255 then mkRgba8 r g b 255        (* from_rgb *)
  else if a =? 0 then transparent
  else gamma_premultiply fp r g b a.

(** [rgba.chunks_exact(4).map(|p| Color32::from_rgba_unmultiplied(..))] *)
Fixpoint chunks_unmultiplied (rgba : list Z) : list Rgba8 :=
  match rgba with
  | r :: g :: b :: a :: rest =>
      color32_from_rgba_unmultiplied r g b a :: chunks_unmultiplied rest
  | _ => []
  end.

(** [ColorImage::from_rgba_unmultiplied(size, rgba)]: it starts with
    [assert_eq!(size[0] * size[1] * 4, rgba.len())]. *)
Definition color_image_from_rgba_unmultiplied (sz : Z * Z) (rgba : list Z)
    : option ColorImage :=
  if fst sz * snd sz * 4 =? Z.of_nat (length rgba)
  then Some (mkColorImage sz (chunks_unmultiplied rgba))
  else None.

(** [color_image_from_dynamic_image] (lib.rs 63-67), with [im_flat!]. *)
Definition color_image_from_dynamic_image (src : DynamicImage) : option ColorImage :=
  let im := into_rgba8 src in
  let '(rgba, w, h) := (img_data im, img_width im, img_height im) in
  color_image_from_rgba_unmultiplied (w, h) rgba.

End Bridge.

(** [ImageBuffer::from_raw(w, h, buf)]: accepted when
    [4 * w * h] (a [checked_mul] in [usize]) is at most [buf.len()]. *)
Definition rgba_image_from_raw (w h : Z) (buf : list Z) : option RgbaImage :=
  let min_len := 4 * w * h in
  if (min_len <? 2 ^ 64) && (min_len <=? Z.of_nat (length buf))
  then Some (mkRgbaImage w h buf)
  else None.

(** The [match] of [dynamic_image_from] (lib.rs 24-27): a rejected buffer is
    replaced by [RgbaImage::new(w, h)]. *)
Definition rgba_image_from_raw_or_new (w h : Z) (buf : list Z) : RgbaImage :=
  match rgba_image_from_raw w h buf with
  | None => rgba_image_new w h
  | Some b => b
  end.

(** [dynamic_image_from] (lib.rs 17-30). [&src.pixels[0]] panics on an empty
    pixel vector; [from_raw_parts(p, sw * sh * 4)] reads the first
    [sw * sh * 4] bytes of the pixel vector (reading past its end would be
    undefined behaviour, a failure here). *)
Definition dynamic_image_from (src : ColorImage) : option DynamicImage :=
  let '(sw, sh) := (width src, height src) in
  match pixels src with
  | [] => None
  | _ =>
      let bytes := flat_map rgba_bytes (pixels src) in
      if Z.of_nat (length bytes) <? sw * sh * 4 then None
      else
        let s := take (Z.to_nat (sw * sh * 4)) bytes in
        Some (ImageRgba8 (rgba_image_from_raw_or_new (as_u32 sw) (as_u32 sh) s))
  end.

(** [color_image_from_dynamic_image(dynamic_image_from(&x))]: the two bridge
    directions composed. *)
Definition bridge_round_trip (fp : FloatPaths) (x : ColorImage) : option ColorImage :=
  match dynamic_image_from x with
  | Some d => color_image_from_dynamic_image fp d
  | None => None
  end.

(* ------------------------------------------------------------------ *)
(** ** The fill resize ([image] 0.24, [DynamicImage::resize_to_fill]) *)

(** [(n as f64 / d as f64).round()] for [n >= 0], [d > 0] (halves round up,
    away from zero). *)
Definition round_div (n d : Z) : Z := (2 * n + d) / (2 * d).

(** [image::math::resize_dimensions(width, height, nwidth, nheight, fill)]:
    [ratio] is [max] (fill) or [min] of [nwidth / width] and
    [nheight / height], kept as the fraction [rn / rd]; the comparison
    [nwidth / width >= nheight / height] is done by cross-multiplication. *)
Definition resize_dimensions (width height nwidth nheight : Z) (fill : bool) : Z * Z :=
  let w_ge_h := nheight * width <=? nwidth * height in
  let '(rn, rd) :=
    if fill then (if w_ge_h then (nwidth, width) else (nheight, height))
    else (if w_ge_h then (nheight, height) else (nwidth, width)) in
  let nw := Z.max (round_div (width * rn) rd) 1 in
  let nh := Z.max (round_div (height * rn) rd) 1 in
  if nw >? u32_max then (u32_max, Z.max (round_div (height * u32_max) width) 1)
  else if nh >? u32_max then (Z.max (round_div (width * u32_max) height) 1, u32_max)
  else (nw, nh).

(** The sampling window of [vertical_sample]/[horizontal_sample] for the
    [Nearest] filter (box kernel, support 0): with
    [input = (out + 0.5) * (in_len / out_len)], the window is
    [left .. right] with [left = clamp(floor(input), 0, in_len - 1)] and
    [right = clamp(ceil(input), left + 1, in_len)], which is the single index
    [left]; the box kernel gives it the weight 1. *)
Definition nearest_left (in_len out_len o : Z) : Z :=
  Z.min ((2 * o + 1) * in_len / (2 * out_len)) (in_len - 1).

(** [vertical_sample(image, new_height, Nearest)] *)
Definition vertical_sample_nearest (im : RgbaImage) (new_height : Z) : RgbaImage :=
  from_fn (img_width im) new_height
    (fun x y => get_pixel im x (nearest_left (img_height im) new_height y)).

(** [horizontal_sample(image, new_width, Nearest)] *)
Definition horizontal_sample_nearest (im : RgbaImage) (new_width : Z) : RgbaImage :=
  from_fn new_width (img_height im)
    (fun x y => get_pixel im (nearest_left (img_width im) new_width x) y).

Section Resize.
Context (fp : FloatPaths).

(** [imageops::resize(image, nwidth, nheight, filter)]: a copy when the
    dimensions are unchanged, else a vertical then a horizontal pass. *)
Definition imageops_resize (im : RgbaImage) (nwidth nheight : Z) (filter : FilterType)
    : RgbaImage :=
  if (nwidth =? img_width im) && (nheight =? img_height im)
  then from_fn (img_width im) (img_height im) (get_pixel im)
  else match filter with
       | Nearest =>
           horizontal_sample_nearest (vertical_sample_nearest im nheight) nwidth
       | f => from_fn nwidth nheight (weighted_sample fp f im nwidth nheight)
       end.

(** [imageops::crop(image, x, y, w, h).to_image()], with the clamping of
    [crop_dimms]. *)
Definition imageops_crop (im : RgbaImage) (x y w h : Z) : RgbaImage :=
  let x := Z.min x (img_width im) in
  let y := Z.min y (img_height im) in
  let w := Z.min w (img_width im - x) in
  let h := Z.min h (img_height im - y) in
  from_fn w h (fun i j => get_pixel im (x + i) (y + j)).

(** [DynamicImage::resize_to_fill(nwidth, nheight, filter)]. The [u32]
    subtractions [iheight - nheight] and [iwidth - nwidth] panic when they
    would go below zero (debug build). *)
Definition resize_to_fill (d : DynamicImage) (nwidth nheight : Z) (filter : FilterType)
    : option DynamicImage :=
  let im := into_rgba8 d in
  let '(width2, height2) :=
    resize_dimensions (img_width im) (img_height im) nwidth nheight true in
  let intermediate := imageops_resize im width2 height2 filter in
  let '(iwidth, iheight) := (img_width intermediate, img_height intermediate) in
  let ratio := iwidth * nheight in
  let nratio := nwidth * iheight in
  if nratio >? ratio then
    if iheight <? nheight then None
    else Some (ImageRgba8 (imageops_crop intermediate 0 ((iheight - nheight) / 2)
                             nwidth nheight))
  else
    if iwidth <? nwidth then None
    else Some (ImageRgba8 (imageops_crop intermediate ((iwidth - nwidth) / 2) 0
                             nwidth nheight)).

(** [resized_copy_from(wh, src, filter)] (lib.rs 37-44) *)
Definition resized_copy_from (wh : Z * Z) (src : ColorImage) (filter : FilterType)
    : option ColorImage :=
  match dynamic_image_from src with
  | None => None
  | Some d =>
      match resize_to_fill d (as_u32 (fst wh)) (as_u32 (snd wh)) filter with
      | None => None
      | Some img => color_image_from_dynamic_image fp img
      end
  end.

End Resize.

(** The 4 x 4 image of the test of lib.rs: four 2 x 2 quadrants. *)
Definition red : Rgba8 := mkRgba8 255 0 0 255.
Definition green : Rgba8 := mkRgba8 0 255 0 255.
Definition blue : Rgba8 := mkRgba8 0 0 255 255.
Definition yellow : Rgba8 := mkRgba8 255 255 0 255.

Definition quadrants_4x4 : ColorImage :=
  mkColorImage (4, 4)
    [red; red; green; green;
     red; red; green; green;
     blue; blue; yellow; yellow;
     blue; blue; yellow; yellow].

Definition sample_fp : FloatPaths := {|
  gamma_premultiply := fun r g b a => mkRgba8 (r * a / 255) (g * a / 255) (b * a / 255) a;
  weighted_sample := fun _ im nw nh x y =>
    get_pixel im (nearest_left (img_width im) nw x) (nearest_left (img_height im) nh y);
  color_image_example := mkColorImage (1, 1) [transparent]
|}.

(* ------------------------------------------------------------------ *)
(** ** The resource facade ([ResourcesBase]) *)

(** [f.contains("/")] *)
Fixpoint has_slash (s : string) : bool :=
  match s with
  | EmptyString => false
  | String c rest => Ascii.eqb c "/"%char || has_slash rest
  end.

(** A path is absolute on Unix when it starts with [/]. *)
Definition is_absolute (s : string) : bool :=
  match s with
  | String c _ => Ascii.eqb c "/"%char
  | EmptyString => false
  end.

Fixpoint ends_with_slash (s : string) : bool :=
  match s with
  | EmptyString => false
  | String c EmptyString => Ascii.eqb c "/"%char
  | String _ rest => ends_with_slash rest
  end.

(** [base.join(f)] ([PathBuf::push] on Unix): an absolute [f] replaces the
    base; otherwise a separator is added when the base is non-empty and does
    not end with one. *)
Definition path_join (base f : string) : string :=
  if is_absolute f then f
  else
    let need_sep := match base with
                    | EmptyString => false
                    | _ => negb (ends_with_slash base)
                    end in
    if need_sep then base +:+ "/" +:+ f else base +:+ f.

(** [ResourcesBase { basepath }] *)
Record ResourcesBase := mkResourcesBase { basepath : string }.

(** The file system, as seen by [File::open], [fs::metadata] and [read]: the
    bytes of the file at a path, or an error. *)
Definition FileSystem := string -> option (list Z).

(** [image::load_from_memory]: the codec, a black box. *)
Definition Decoder := list Z -> option DynamicImage.

(** The path computed in [read_bytes] (lib.rs 146). *)
Definition resolve_path (rb : ResourcesBase) (f : string) (p : bool) : string :=
  if negb p then f else path_join (basepath rb) f.

(** [ResourcesBase::read_bytes] (lib.rs 144-152) *)
Definition read_bytes (fs : FileSystem) (rb : ResourcesBase) (f : string) (p : bool)
    : option (list Z) :=
  fs (resolve_path rb f p).

(** [eframe::IconData { rgba, width, height }] *)
Record IconData := mkIconData { icon_rgba : list Z; icon_width : Z; icon_height : Z }.

Section Facade.
Context (fp : FloatPaths) (fs : FileSystem) (load_from_memory : Decoder).

(** [ResourcesBase::resource_img] (lib.rs 87-94) *)
Definition resource_img (rb : ResourcesBase) (f : string) (p : bool) : option ColorImage :=
  match read_bytes fs rb f p with
  | None => Some (color_image_example fp)
  | Some b =>
      match load_from_memory b with
      | Some img => color_image_from_dynamic_image fp img
      | None => Some (color_image_example fp)
      end
  end.

(** [ResourcesBase::resource_icon] (lib.rs 100-108) *)
Definition resource_icon (rb : ResourcesBase) (ico : string) (p : bool) : option IconData :=
  match read_bytes fs rb ico p with
  | None => None
  | Some b =>
      match load_from_memory b with
      | Some img =>
          let im := into_rgba8 img in
          Some (mkIconData (img_data im) (img_width im) (img_height im))
      | None => None
      end
  end.

End Facade.

(** [egui::FontFamily] *)
Inductive FontFamily := Proportional | Monospace | Name (s : string).

#[global] Instance FontFamily_eq_dec : EqDecision FontFamily.
Proof. solve_decision. Defined.

Definition font_family_encode (t : FontFamily) : string + bool :=
  match t with
  | Proportional => inr true
  | Monospace => inr false
  | Name s => inl s
  end.

Definition font_family_decode (e : string + bool) : FontFamily :=
  match e with
  | inr true => Proportional
  | inr false => Monospace
  | inl s => Name s
  end.

#[global] Instance FontFamily_countable : Countable FontFamily.
Proof.
  apply (inj_countable' font_family_encode font_family_decode).
  intros []; reflexivity.
Defined.

(** [egui::FontData] as built by [FontData::from_owned(bytes)]. *)
Record FontData := mkFontData { font : list Z; index : Z }.

Definition font_data_from_owned (b : list Z) : FontData := mkFontData b 0.

(** [egui::FontDefinitions { font_data: BTreeMap<String, FontData>,
    families: BTreeMap<FontFamily, Vec<String>> }] *)
Record FontDefinitions := mkFontDefinitions {
  font_data : gmap string FontData;
  families : gmap FontFamily (list string)
}.

Section Fonts.
Context (fs : FileSystem).

(** [ResourcesBase::resource_font] (lib.rs 117-126); the [&mut
    FontDefinitions] is threaded through. [entry(t).or_default()] is the
    family's list, or [] when absent; [insert(0, m)] puts [m] in front. *)
Definition resource_font (rb : ResourcesBase) (fonts : FontDefinitions)
    (n f : string) (t : FontFamily) (p : bool) : FontDefinitions :=
  match read_bytes fs rb f p with
  | None => fonts
  | Some b =>
      let m := n in
      let fd := <[n := font_data_from_owned b]> (font_data fonts) in
      let fam := families fonts in
      mkFontDefinitions fd (<[t := m :: default [] (fam !! t)]> fam)
  end.

(** [ResourcesBase::reg_fonts] (lib.rs 131-138); [default_fonts] is
    [FontDefinitions::default()], egui's bundled fonts. *)
Definition reg_fonts (rb : ResourcesBase) (default_fonts : FontDefinitions)
    (ffs : list (string * string * FontFamily)) : FontDefinitions :=
  fold_left (fun fonts '(n, f, t) => resource_font rb fonts n f t (negb (has_slash f)))
    ffs default_fonts.

End Fonts.

(** The path policy the spec describes for font files: a name without [/] is
    resolved under the base path, a name with [/] is used as it is. *)
Definition font_path (rb : ResourcesBase) (f : string) : string :=
  if has_slash f then f else path_join (basepath rb) f.

(** The names that the entries of [ffs] whose file can be read register in
    family [t], the last entry first: each [reg_fonts] step puts its name at
    the front of the family's list. *)
Fixpoint registered_names (fs : FileSystem) (rb : ResourcesBase) (t : FontFamily)
    (ffs : list (string * string * FontFamily)) : list string :=
  match ffs with
  | [] => []
  | (n, f, t') :: rest =>
      registered_names fs rb t rest ++
      (if decide (t' = t) then
         match fs (font_path rb f) with Some _ => [n] | None => [] end
       else [])
  end.

(* ================================================================== *)
(** * Properties *)

(** ** The bridge *)

(** Validity of a concrete ColorImage. *)
Ltac prove_valid :=
  lazymatch goal with
  | |- valid_color_image ?c => let c' := eval hnf in c in change (valid_color_image c')
  end;
  unfold valid_color_image, width, height; cbn [size pixels fst snd length];
  repeat split; try lia;
  repeat (constructor; [unfold rgba8_ok, byte_ok; cbn; lia|]); constructor.

Lemma length_flat_map_rgba_bytes (ps : list Rgba8) :
  length (flat_map rgba_bytes ps) = (4 * length ps)%nat.
Proof. induction ps as [|c ps IH]; simpl; [done|]. rewrite IH. lia. Qed.

Definition opaque_or_clear (c : Rgba8) : Prop := px_a c = 255 \/ c = transparent.

Lemma color32_from_rgba_unmultiplied_keep fp c :
  opaque_or_clear c ->
  color32_from_rgba_unmultiplied fp (px_r c) (px_g c) (px_b c) (px_a c) = c.
Proof.
  unfold color32_from_rgba_unmultiplied, opaque_or_clear.
  intros [Ha | ->]; [| reflexivity].
  rewrite Ha. destruct c; simpl in *; subst; reflexivity.
Qed.

Lemma chunks_unmultiplied_flat_map fp (ps : list Rgba8) :
  Forall opaque_or_clear ps ->
  chunks_unmultiplied fp (flat_map rgba_bytes ps) = ps.
Proof.
  induction 1 as [|c ps Hc _ IH]; [reflexivity|].
  simpl. rewrite IH, color32_from_rgba_unmultiplied_keep; done.
Qed.

Lemma as_u32_small (x : Z) : 0 <= x < 2 ^ 32 -> as_u32 x = x.
Proof. intros. unfold as_u32. apply Z.mod_small. lia. Qed.

(** [dynamic_image_from] copies the stored bytes of every pixel, in order. *)
Lemma dynamic_image_from_valid (x : ColorImage) :
  valid_color_image x -> pixels x <> [] ->
  width x < 2 ^ 32 -> height x < 2 ^ 32 ->
  dynamic_image_from x =
    Some (ImageRgba8 (mkRgbaImage (width x) (height x) (flat_map rgba_bytes (pixels x)))).
Proof.
  intros (Hw & Hh & Hlen & Hmax & _) Hne Hw32 Hh32.
  unfold dynamic_image_from.
  pose proof (length_flat_map_rgba_bytes (pixels x)) as Hb.
  destruct (pixels x) as [|c ps] eqn:Hp; [congruence|].
  rewrite <- Hp in *.
  assert (Z.of_nat (length (flat_map rgba_bytes (pixels x))) = width x * height x * 4)
    as Hbl by lia.
  rewrite Hbl, Z.ltb_irrefl.
  rewrite take_ge by lia.
  rewrite !as_u32_small by lia.
  unfold rgba_image_from_raw_or_new, rgba_image_from_raw.
  replace (4 * width x * height x <? 2 ^ 64) with true by (symmetry; apply Z.ltb_lt; lia).
  replace (4 * width x * height x <=? Z.of_nat (length (flat_map rgba_bytes (pixels x))))
    with true by (symmetry; apply Z.leb_le; lia).
  reflexivity.
Qed.

(** The 1 x 1 image whose only pixel has red 255 and alpha 0. *)
Definition clear_red_1x1 : ColorImage := mkColorImage (1, 1) [mkRgba8 255 0 0 0].

(** Claim C1 (counterexample): the round trip ColorImage -> raw RGBA8 buffer
    -> ColorImage is not the identity on every valid ColorImage: the pixel
    (255, 0, 0, 0) comes back as (0, 0, 0, 0), because the way back premultiplies
    alpha. *)
Lemma C1_round_trip_counterexample :
  ~ (forall (fp : FloatPaths) (x : ColorImage),
       valid_color_image x -> bridge_round_trip fp x = Some x).
Proof.
  intros H.
  assert (Hv : valid_color_image clear_red_1x1).
  { prove_valid. }
  specialize (H sample_fp clear_red_1x1 Hv).
  vm_compute in H. discriminate H.
Qed.

(** Claim C1 (amended): for every valid ColorImage with at least one pixel
    and dimensions below 2^32 whose pixels are each opaque (alpha 255) or
    fully clear (0, 0, 0, 0), converting it to the raw RGBA8 buffer and back
    yields it unchanged. *)
Theorem C1_round_trip_opaque (fp : FloatPaths) (x : ColorImage) :
  valid_color_image x -> pixels x <> [] ->
  width x < 2 ^ 32 -> height x < 2 ^ 32 ->
  Forall opaque_or_clear (pixels x) ->
  bridge_round_trip fp x = Some x.
Proof.
  intros Hv Hne Hw Hh Hop.
  unfold bridge_round_trip. rewrite dynamic_image_from_valid by done.
  destruct Hv as (_ & _ & Hlen & _).
  unfold color_image_from_dynamic_image, color_image_from_rgba_unmultiplied; simpl.
  rewrite length_flat_map_rgba_bytes.
  replace (width x * height x * 4 =? Z.of_nat (4 * length (pixels x))) with true
    by (symmetry; apply Z.eqb_eq; lia).
  rewrite chunks_unmultiplied_flat_map by done.
  destruct x as [[w h] ps]; reflexivity.
Qed.

Lemma C1_round_trip_opaque_witness :
  (valid_color_image quadrants_4x4 /\ pixels quadrants_4x4 <> [] /\
   width quadrants_4x4 < 2 ^ 32 /\ height quadrants_4x4 < 2 ^ 32 /\
   Forall opaque_or_clear (pixels quadrants_4x4)) /\
  bridge_round_trip sample_fp quadrants_4x4 = Some quadrants_4x4.
Proof.
  assert (Hv : valid_color_image quadrants_4x4).
  { prove_valid. }
  assert (Hop : Forall opaque_or_clear (pixels quadrants_4x4)).
  { repeat constructor; left; reflexivity. }
  assert (Hne : pixels quadrants_4x4 <> []) by discriminate.
  assert (Hw : width quadrants_4x4 < 2 ^ 32) by (vm_compute; reflexivity).
  assert (Hh : height quadrants_4x4 < 2 ^ 32) by (vm_compute; reflexivity).
  exact (conj (conj Hv (conj Hne (conj Hw (conj Hh Hop))))
          (C1_round_trip_opaque sample_fp quadrants_4x4 Hv Hne Hw Hh Hop)).
Defined.

Lemma chunks_unmultiplied_length fp (l : list Z) :
  length (chunks_unmultiplied fp l) = (length l / 4)%nat.
Proof.
  remember (length l) as n eqn:Hn. revert l Hn.
  induction n as [n IH] using lt_wf_ind. intros l Hn.
  destruct l as [|r [|g [|b [|a rest]]]]; cbn [chunks_unmultiplied length] in *;
    subst; try reflexivity.
  cbn [length]. rewrite (IH (length rest)) by lia.
  change (S (S (S (S (length rest))))) with (1 * 4 + length rest)%nat.
  rewrite Nat.div_add_l by lia. reflexivity.
Qed.

Lemma chunks_unmultiplied_lookup fp (l : list Z) (i : nat) r g b a :
  take 4 (drop (4 * i) l) = [r; g; b; a] ->
  chunks_unmultiplied fp l !! i = Some (color32_from_rgba_unmultiplied fp r g b a).
Proof.
  revert l. induction i as [|i IH]; intros l Hl.
  - destruct l as [|r' [|g' [|b' [|a' rest]]]]; simpl in Hl; try discriminate.
    injection Hl as -> -> -> ->. reflexivity.
  - destruct l as [|r' [|g' [|b' [|a' rest]]]];
      try (rewrite drop_ge in Hl by (cbn [length]; lia); simpl in Hl; discriminate).
    simpl. apply IH.
    replace (4 * S i)%nat with (S (S (S (S (4 * i)))))%nat in Hl by lia. exact Hl.
Qed.

(** Claim C2 (counterexample): the conversion of a raw RGBA8 buffer to a
    ColorImage does not keep every byte: the 1 x 1 buffer (255, 0, 0, 0)
    becomes the pixel (0, 0, 0, 0). *)
Lemma C2_bytes_counterexample :
  ~ (forall (fp : FloatPaths) (im : RgbaImage),
       0 <= img_width im -> 0 <= img_height im ->
       Z.of_nat (length (img_data im)) = img_width im * img_height im * 4 ->
       Forall byte_ok (img_data im) ->
       exists c, color_image_from_dynamic_image fp (ImageRgba8 im) = Some c /\
                 flat_map rgba_bytes (pixels c) = img_data im).
Proof.
  intros H.
  destruct (H sample_fp (mkRgbaImage 1 1 [255; 0; 0; 0])) as (c & Hc & Hb);
    simpl; try lia.
  { repeat constructor; unfold byte_ok; lia. }
  vm_compute in Hc. injection Hc as <-. vm_compute in Hb. discriminate Hb.
Qed.

(** Claim C2 (amended): [dynamic_image_from] copies the four stored bytes of
    every pixel unchanged, in order (for a valid ColorImage with at least one
    pixel and dimensions below 2^32); [color_image_from_dynamic_image] maps
    the i-th 4-byte group (r, g, b, a) of a well-shaped buffer to the i-th
    pixel through [Color32::from_rgba_unmultiplied]: it keeps the bytes when
    a = 255, gives (0, 0, 0, 0) when a = 0, and gives egui's premultiplied
    value [gamma_premultiply] when 0 < a < 255. *)
Theorem C2_bridge_bytes (fp : FloatPaths) :
  (forall x : ColorImage,
     valid_color_image x -> pixels x <> [] ->
     width x < 2 ^ 32 -> height x < 2 ^ 32 ->
     dynamic_image_from x =
       Some (ImageRgba8 (mkRgbaImage (width x) (height x)
                           (flat_map rgba_bytes (pixels x))))) /\
  (forall im : RgbaImage,
     0 <= img_width im -> 0 <= img_height im ->
     Z.of_nat (length (img_data im)) = img_width im * img_height im * 4 ->
     exists c, color_image_from_dynamic_image fp (ImageRgba8 im) = Some c /\
       size c = (img_width im, img_height im) /\
       Z.of_nat (length (pixels c)) = img_width im * img_height im /\
       forall (i : nat) r g b a,
         take 4 (drop (4 * i) (img_data im)) = [r; g; b; a] ->
         pixels c !! i = Some (color32_from_rgba_unmultiplied fp r g b a) /\
         (a = 255 -> pixels c !! i = Some (mkRgba8 r g b a)) /\
         (a = 0 -> pixels c !! i = Some transparent) /\
         (0 < a < 255 -> pixels c !! i = Some (gamma_premultiply fp r g b a))).
Proof.
  split; [exact dynamic_image_from_valid|].
  intros [w h data] Hw Hh Hlen; simpl in *.
  unfold color_image_from_dynamic_image, color_image_from_rgba_unmultiplied; simpl.
  rewrite <- Hlen, Z.eqb_refl.
  eexists; split; [reflexivity|]. simpl.
  split; [reflexivity|]. split.
  - rewrite chunks_unmultiplied_length.
    rewrite Nat2Z.inj_div. rewrite Hlen. simpl.
    rewrite Z.div_mul by lia. reflexivity.
  - intros i r g b a Hi.
    rewrite (chunks_unmultiplied_lookup fp data i r g b a Hi).
    split; [reflexivity|]. unfold color32_from_rgba_unmultiplied.
    split; [intros ->; reflexivity|]. split; [intros ->; reflexivity|].
    intros Ha. rewrite (proj2 (Z.eqb_neq a 255)), (proj2 (Z.eqb_neq a 0)) by lia.
    reflexivity.
Qed.

(** ** The fill resize *)

Lemma length_flat_map_const {A B} (g : A -> list B) (k : nat) (l : list A) :
  (forall x, length (g x) = k) -> length (flat_map g l) = (length l * k)%nat.
Proof. intros Hg. induction l as [|x l IH]; simpl; [done|]. rewrite length_app, Hg, IH. lia. Qed.

Lemma from_fn_length (w h : Z) (f : Z -> Z -> Rgba8) :
  0 <= w -> 0 <= h ->
  Z.of_nat (length (img_data (from_fn w h f))) = w * h * 4.
Proof.
  intros Hw Hh. unfold from_fn; simpl.
  rewrite (length_flat_map_const _ (Z.to_nat w * 4)).
  - unfold zrange. rewrite length_map, length_seq. lia.
  - intros y. rewrite (length_flat_map_const _ 4); [|reflexivity].
    unfold zrange. rewrite length_map, length_seq. lia.
Qed.

(** Every image built by [from_fn] converts to a ColorImage of its size. *)
Lemma color_image_from_from_fn fp (w h : Z) (g : Z -> Z -> Rgba8) :
  0 <= w -> 0 <= h ->
  exists c, color_image_from_dynamic_image fp (ImageRgba8 (from_fn w h g)) = Some c /\
            size c = (w, h) /\ Z.of_nat (length (pixels c)) = w * h.
Proof.
  intros Hw Hh. pose proof (from_fn_length w h g Hw Hh) as Hl.
  unfold color_image_from_dynamic_image, color_image_from_rgba_unmultiplied.
  cbn [into_rgba8 img_data img_width img_height fst snd].
  change (img_width (from_fn w h g)) with w. change (img_height (from_fn w h g)) with h.
  rewrite Hl, Z.eqb_refl.
  eexists; split; [reflexivity|]. split; [reflexivity|]. cbn [pixels].
  rewrite chunks_unmultiplied_length, Nat2Z.inj_div, Hl.
  change (Z.of_nat 4) with 4. rewrite Z.div_mul by lia. reflexivity.
Qed.

Lemma round_div_bounds (n d lo hi : Z) :
  0 < d -> lo * d <= n -> n <= hi * d -> lo <= round_div n d <= hi.
Proof.
  intros Hd Hlo Hhi. unfold round_div. split.
  - apply Z.div_le_lower_bound; lia.
  - assert ((2 * n + d) / (2 * d) < hi + 1); [|lia].
    apply Z.div_lt_upper_bound; lia.
Qed.

(** Below the [u32] limit, the fill dimensions cover the target. *)
Lemma resize_dimensions_fill (W H w h : Z) :
  0 < W -> 0 < H -> 0 < w <= u32_max -> 0 < h <= u32_max ->
  H * w <= u32_max * W -> W * h <= u32_max * H ->
  let '(nw, nh) := resize_dimensions W H w h true in
  w <= nw <= u32_max /\ h <= nh <= u32_max.
Proof.
  intros HW HH Hw Hh Hcw Hch. unfold resize_dimensions.
  destruct (Z.leb_spec (h * W) (w * H)) as [Hge | Hlt].
  - assert (E1 : w <= round_div (W * w) W <= w) by (apply round_div_bounds; lia).
    assert (E2 : h <= round_div (H * w) W <= u32_max) by (apply round_div_bounds; lia).
    rewrite (Z.max_l (round_div (W * w) W)), (Z.max_l (round_div (H * w) W)) by lia.
    destruct (Z.gtb_spec (round_div (W * w) W) u32_max); [lia|].
    destruct (Z.gtb_spec (round_div (H * w) W) u32_max); [lia|]. lia.
  - assert (E1 : w <= round_div (W * h) H <= u32_max) by (apply round_div_bounds; lia).
    assert (E2 : h <= round_div (H * h) H <= h) by (apply round_div_bounds; lia).
    rewrite (Z.max_l (round_div (W * h) H)), (Z.max_l (round_div (H * h) H)) by lia.
    destruct (Z.gtb_spec (round_div (W * h) H) u32_max); [lia|].
    destruct (Z.gtb_spec (round_div (H * h) H) u32_max); [lia|]. lia.
Qed.

Lemma imageops_resize_dims fp (im : RgbaImage) (nw nh : Z) (f : FilterType) :
  img_width (imageops_resize fp im nw nh f) = nw /\
  img_height (imageops_resize fp im nw nh f) = nh.
Proof.
  unfold imageops_resize.
  destruct (Z.eqb_spec nw (img_width im)), (Z.eqb_spec nh (img_height im));
    simpl; try (split; congruence); destruct f; simpl; split; reflexivity.
Qed.

Lemma imageops_crop_inside (im : RgbaImage) (x y w h : Z) :
  0 <= x -> 0 <= y -> 0 <= w -> 0 <= h ->
  x + w <= img_width im -> y + h <= img_height im ->
  imageops_crop im x y w h = from_fn w h (fun i j => get_pixel im (x + i) (y + j)).
Proof.
  intros Hx Hy Hw0 Hh0 Hw Hh. unfold imageops_crop.
  rewrite (Z.min_l x) by lia. rewrite (Z.min_l y) by lia.
  rewrite (Z.min_l w) by lia. rewrite (Z.min_l h) by lia. reflexivity.
Qed.

(** Claim C3 (counterexample): a target width that does not fit in [u32]
    is cut by [wh[0] as u32]: fill-resizing the 4 x 4 test image to
    (2^32, 1) returns an image of size (0, 1). *)
Lemma C3_shape_counterexample :
  ~ (forall (fp : FloatPaths) (src : ColorImage) (w h : Z) (f : FilterType),
       valid_color_image src -> 0 < width src -> 0 < height src -> 0 < w -> 0 < h ->
       forall c, resized_copy_from fp (w, h) src f = Some c ->
       size c = (w, h) /\ Z.of_nat (length (pixels c)) = w * h).
Proof.
  intros H.
  assert (Hv : valid_color_image quadrants_4x4) by prove_valid.
  assert (E : resized_copy_from sample_fp (2 ^ 32, 1) quadrants_4x4 Nearest =
               Some (mkColorImage (0, 1) [])) by (vm_compute; reflexivity).
  assert (Hw : 0 < width quadrants_4x4) by (vm_compute; reflexivity).
  assert (Hh : 0 < height quadrants_4x4) by (vm_compute; reflexivity).
  destruct (H sample_fp quadrants_4x4 (2 ^ 32) 1 Nearest Hv Hw Hh ltac:(lia) ltac:(lia) _ E)
    as [Hs _].
  discriminate Hs.
Qed.

(** Claim C3 (amended): for a valid source whose dimensions are positive and
    below 2^32, a target (w, h) with 0 < w, h < 2^32, and a fill-scaled
    intermediate that fits in [u32] ([H * w <= u32::MAX * W] and
    [W * h <= u32::MAX * H]), [resized_copy_from] with any filter returns an
    image of size exactly (w, h) with w * h pixels. *)
Theorem C3_fill_resize_shape (fp : FloatPaths) (src : ColorImage) (w h : Z)
    (f : FilterType) :
  valid_color_image src ->
  0 < width src < 2 ^ 32 -> 0 < height src < 2 ^ 32 ->
  0 < w < 2 ^ 32 -> 0 < h < 2 ^ 32 ->
  height src * w <= u32_max * width src -> width src * h <= u32_max * height src ->
  exists c, resized_copy_from fp (w, h) src f = Some c /\
            size c = (w, h) /\ Z.of_nat (length (pixels c)) = w * h.
Proof.
  intros Hv HW HH Hw Hh Hcw Hch.
  assert (Hne : pixels src <> []).
  { destruct Hv as (_ & _ & Hlen & _). intros E. rewrite E in Hlen. simpl in Hlen. nia. }
  unfold resized_copy_from. rewrite dynamic_image_from_valid by (done || lia).
  cbn [fst snd]. rewrite !as_u32_small by lia.
  unfold resize_to_fill. cbn [into_rgba8 img_width img_height].
  pose proof (resize_dimensions_fill (width src) (height src) w h) as Hd.
  destruct (resize_dimensions (width src) (height src) w h true) as [nw nh].
  unfold u32_max in *. destruct Hd as [Hnw Hnh]; try lia.
  cbv beta iota zeta.
  destruct (imageops_resize_dims fp
              (mkRgbaImage (width src) (height src) (flat_map rgba_bytes (pixels src)))
              nw nh f) as [Eiw Eih].
  rewrite Eiw, Eih.
  destruct (Z.gtb_spec (w * nh) (nw * h)).
  - destruct (Z.ltb_spec nh h); [lia|].
    rewrite imageops_crop_inside
      by (rewrite ?Eiw, ?Eih; Z.to_euclidean_division_equations; lia).
    apply color_image_from_from_fn; lia.
  - destruct (Z.ltb_spec nw w); [lia|].
    rewrite imageops_crop_inside
      by (rewrite ?Eiw, ?Eih; Z.to_euclidean_division_equations; lia).
    apply color_image_from_from_fn; lia.
Qed.

Lemma C3_fill_resize_shape_witness :
  exists c, resized_copy_from sample_fp (3, 1) quadrants_4x4 Lanczos3 = Some c /\
            size c = (3, 1) /\ Z.of_nat (length (pixels c)) = 3 * 1.
Proof.
  apply C3_fill_resize_shape;
    [prove_valid | vm_compute; split; reflexivity | vm_compute; split; reflexivity
    | lia | lia | vm_compute; discriminate | vm_compute; discriminate].
Defined.

(** ** Shape mismatch in the raw-buffer constructor *)

Lemma chunks_unmultiplied_zeros fp (n : nat) :
  chunks_unmultiplied fp (repeat 0 (4 * n)) = repeat transparent n.
Proof.
  induction n as [|n IH]; [reflexivity|].
  replace (4 * S n)%nat with (S (S (S (S (4 * n)))))%nat by lia.
  cbn [repeat chunks_unmultiplied]. rewrite IH. reflexivity.
Qed.

(** Claim C4 (counterexample): a buffer whose length is not
    width*height*4 does not make the conversion return to its caller with an
    error: [RgbaImage::from_raw] accepts a 1 x 1 image with 5 bytes, and
    [color_image_from_dynamic_image] on it stops at the [assert_eq!] of
    [ColorImage::from_rgba_unmultiplied] (a panic; there is no error value). *)
Lemma C4_shape_mismatch_counterexample :
  ~ (forall (fp : FloatPaths) (w h : Z) (buf : list Z) (im : RgbaImage),
       rgba_image_from_raw w h buf = Some im ->
       Z.of_nat (length buf) <> w * h * 4 ->
       color_image_from_dynamic_image fp (ImageRgba8 im) <> None).
Proof.
  intros H.
  apply (H sample_fp 1 1 [1; 2; 3; 4; 5] (mkRgbaImage 1 1 [1; 2; 3; 4; 5]));
    [reflexivity | cbn; lia | reflexivity].
Qed.

(** Claim C4 (amended): there is no ShapeMismatch error value, and no
    mismatched buffer is silently accepted. [RgbaImage::from_raw] refuses a
    buffer shorter than width*height*4; [dynamic_image_from] always passes
    exactly width*height*4 bytes, which [from_raw] accepts, so its
    [RgbaImage::new] fallback is never taken (for a byte count below 2^64);
    and [color_image_from_dynamic_image] on a buffer of any other length
    than width*height*4 stops at the size assertion of
    [ColorImage::from_rgba_unmultiplied] instead of truncating or padding. *)
Theorem C4_mismatch_rejected (fp : FloatPaths) :
  (forall (w h : Z) (buf : list Z),
     Z.of_nat (length buf) < 4 * w * h -> rgba_image_from_raw w h buf = None) /\
  (forall im : RgbaImage,
     Z.of_nat (length (img_data im)) <> img_width im * img_height im * 4 ->
     color_image_from_dynamic_image fp (ImageRgba8 im) = None) /\
  (forall (src : ColorImage) (d : DynamicImage),
     0 <= width src -> 0 <= height src -> width src * height src * 4 < 2 ^ 64 ->
     dynamic_image_from src = Some d ->
     let s := take (Z.to_nat (width src * height src * 4)) (flat_map rgba_bytes (pixels src)) in
     Z.of_nat (length s) = width src * height src * 4 /\
     rgba_image_from_raw (as_u32 (width src)) (as_u32 (height src)) s = Some (mkRgbaImage (as_u32 (width src)) (as_u32 (height src)) s) /\
     d = ImageRgba8 (mkRgbaImage (as_u32 (width src)) (as_u32 (height src)) s)).
Proof.
  split; [|split].
  - intros w h buf Hlt. unfold rgba_image_from_raw.
    rewrite (proj2 (Z.leb_gt _ _) Hlt), andb_false_r. reflexivity.
  - intros [w h data] Hne. cbn [img_data img_width img_height] in Hne.
    unfold color_image_from_dynamic_image, color_image_from_rgba_unmultiplied.
    cbn [into_rgba8 img_data img_width img_height fst snd].
    rewrite (proj2 (Z.eqb_neq _ _) (not_eq_sym Hne)). reflexivity.
  - intros src d Hw Hh Hmax.
    unfold dynamic_image_from. cbv beta iota zeta.
    destruct (pixels src) as [|p ps] eqn:Ep; [discriminate|]. rewrite <- Ep.
    destruct (Z.ltb_spec (Z.of_nat (length (flat_map rgba_bytes (pixels src))))
                (width src * height src * 4)) as [Hl|Hl]; [discriminate|].
    intros Hd. injection Hd as <-.
    set (s := take _ _).
    assert (Hs : Z.of_nat (length s) = width src * height src * 4).
    { subst s. rewrite length_take. lia. }
    assert (Hraw : rgba_image_from_raw (as_u32 (width src)) (as_u32 (height src)) s
                   = Some (mkRgbaImage (as_u32 (width src)) (as_u32 (height src)) s)).
    { unfold rgba_image_from_raw, as_u32.
      pose proof (Z.mod_le (width src) (2 ^ 32) Hw ltac:(lia)).
      pose proof (Z.mod_le (height src) (2 ^ 32) Hh ltac:(lia)).
      pose proof (Z.mod_pos_bound (width src) (2 ^ 32) ltac:(lia)).
      pose proof (Z.mod_pos_bound (height src) (2 ^ 32) ltac:(lia)).
      rewrite (proj2 (Z.ltb_lt _ _)) by nia. rewrite (proj2 (Z.leb_le _ _)) by nia.
      reflexivity. }
    split; [exact Hs|]. split; [exact Hraw|].
    unfold rgba_image_from_raw_or_new. rewrite Hraw. reflexivity.
Qed.

(** ** Zero-area sources *)

Lemma dynamic_image_from_empty (src : ColorImage) :
  pixels src = [] -> dynamic_image_from src = None.
Proof. intros E. unfold dynamic_image_from. rewrite E. reflexivity. Qed.

Lemma valid_zero_area_empty (src : ColorImage) :
  valid_color_image src -> width src * height src = 0 -> pixels src = [].
Proof.
  intros (_ & _ & Hlen & _) H0. apply length_zero_iff_nil. lia.
Qed.




(** ** The test of lib.rs: nearest-neighbour downsampling *)

(** Claim C7: fill-resizing the 4 x 4 image of four solid 2 x 2 quadrants
    (red, green / blue, yellow, alpha 255) to (2, 2) with [Nearest] yields the
    2 x 2 image [red; green; blue; yellow]. *)
Theorem C7_nearest_quadrants (fp : FloatPaths) :
  resized_copy_from fp (2, 2) quadrants_4x4 Nearest =
    Some (mkColorImage (2, 2) [red; green; blue; yellow]).
Proof. vm_compute. reflexivity. Qed.

(** ** Degenerate target *)

(** Claim C8 (code bug): for the valid 0 x 0 source, fill-resizing to (0, 0)
    does not succeed: [dynamic_image_from] indexes [src.pixels[0]] of the
    empty pixel vector and panics, for every filter. *)
Theorem C8_empty_source_zero_target (fp : FloatPaths) (f : FilterType) :
  resized_copy_from fp (0, 0) (mkColorImage (0, 0) []) f = None.
Proof. reflexivity. Qed.

(** For a source with at least one pixel, the (0, 0) target does succeed
    and gives the empty 0 x 0 image. *)
Lemma resized_copy_from_zero_target (fp : FloatPaths) (src : ColorImage) (f : FilterType) :
  valid_color_image src -> pixels src <> [] ->
  width src < 2 ^ 32 -> height src < 2 ^ 32 ->
  resized_copy_from fp (0, 0) src f = Some (mkColorImage (0, 0) []).
Proof.
  intros Hv Hne Hw Hh.
  assert (HW : 0 < width src /\ 0 < height src).
  { destruct Hv as (? & ? & Hlen & _). destruct (pixels src); [congruence|].
    simpl in Hlen. nia. }
  unfold resized_copy_from. rewrite dynamic_image_from_valid by assumption.
  cbn [fst snd]. rewrite !as_u32_small by lia.
  unfold resize_to_fill. cbn [into_rgba8 img_width img_height].
  assert (Hd : resize_dimensions (width src) (height src) 0 0 true = (1, 1)).
  { unfold resize_dimensions. rewrite ?Z.mul_0_l, ?Z.mul_0_r, Z.leb_refl.
    assert (E : round_div 0 (width src) = 0).
    { unfold round_div. apply Z.div_small. lia. }
    rewrite !Z.mul_0_r, E. reflexivity. }
  rewrite Hd. cbv beta iota zeta.
  destruct (imageops_resize_dims fp
              (mkRgbaImage (width src) (height src) (flat_map rgba_bytes (pixels src)))
              1 1 f) as [Eiw Eih].
  rewrite Eiw, Eih. change (0 * 1 >? 1 * 0) with false. change (1 <? 0) with false.
  cbv iota. unfold imageops_crop. rewrite Eiw, Eih. reflexivity.
Qed.

(** ** The resource facade *)

(** Claim C6: when the bytes read cannot be decoded, [resource_img] returns
    the placeholder [ColorImage::example()] (the same image whatever the
    bytes) and [resource_icon] returns [None]; neither panics. *)
Theorem C6_fail_soft (fp : FloatPaths) (fs : FileSystem) (load : Decoder)
    (rb : ResourcesBase) (f : string) (p : bool) (b : list Z) :
  read_bytes fs rb f p = Some b -> load b = None ->
  resource_img fp fs load rb f p = Some (color_image_example fp) /\
  resource_icon fs load rb f p = None.
Proof.
  intros Hr Hd. unfold resource_img, resource_icon. rewrite Hr, Hd. split; reflexivity.
Qed.

Lemma C6_fail_soft_witness :
  (read_bytes (fun _ => Some [0; 1; 2]) (mkResourcesBase "./resources") "bad.png" true
     = Some [0; 1; 2] /\ (fun _ : list Z => @None DynamicImage) [0; 1; 2] = None) /\
  (resource_img sample_fp (fun _ => Some [0; 1; 2]) (fun _ => None)
     (mkResourcesBase "./resources") "bad.png" true = Some (color_image_example sample_fp) /\
   resource_icon (fun _ => Some [0; 1; 2]) (fun _ => None)
     (mkResourcesBase "./resources") "bad.png" true = None).
Proof.
  assert (Hr : read_bytes (fun _ => Some [0; 1; 2]) (mkResourcesBase "./resources")
                 "bad.png" true = Some [0; 1; 2]) by reflexivity.
  assert (Hd : (fun _ : list Z => @None DynamicImage) [0; 1; 2] = None) by reflexivity.
  exact (conj (conj Hr Hd)
          (C6_fail_soft sample_fp _ (fun _ => None) _ _ _ _ Hr Hd)).
Defined.

Lemma has_slash_not_absolute (f : string) :
  has_slash f = false -> is_absolute f = false.
Proof.
  destruct f as [|c rest]; [reflexivity|]. simpl. intros H.
  apply orb_false_iff in H. apply H.
Qed.

Lemma read_bytes_font_path (fs : FileSystem) (rb : ResourcesBase) (f : string) :
  read_bytes fs rb f (negb (has_slash f)) = fs (font_path rb f).
Proof.
  unfold read_bytes, resolve_path, font_path. destruct (has_slash f); reflexivity.
Qed.

Lemma resource_font_ext (fs1 fs2 : FileSystem) rb fonts n f t p :
  read_bytes fs1 rb f p = read_bytes fs2 rb f p ->
  resource_font fs1 rb fonts n f t p = resource_font fs2 rb fonts n f t p.
Proof. intros E. unfold resource_font. rewrite E. reflexivity. Qed.

(** Claim C9: [reg_fonts] reads each font file at the path that the
    file name alone selects: under the base path when the name has no [/],
    the name itself when it has one. The reading path is [font_path];
    a name without [/] is resolved to the base path followed (after a
    separator, when one is needed) by the name; and the fonts [reg_fonts]
    builds depend on the file system only through these paths. [reg_fonts]
    takes no path-policy argument: the entries are bare triples. *)
Theorem C9_reg_fonts_path_policy (rb : ResourcesBase) :
  (forall fs f, read_bytes fs rb f (negb (has_slash f)) = fs (font_path rb f)) /\
  (forall f, has_slash f = true -> font_path rb f = f) /\
  (forall f, has_slash f = false ->
     exists sep, (sep = "" \/ sep = "/") /\ font_path rb f = basepath rb +:+ sep +:+ f) /\
  (forall (fs1 fs2 : FileSystem) (dflt : FontDefinitions)
          (ffs : list (string * string * FontFamily)),
     (forall n f t, In (n, f, t) ffs -> fs1 (font_path rb f) = fs2 (font_path rb f)) ->
     reg_fonts fs1 rb dflt ffs = reg_fonts fs2 rb dflt ffs).
Proof.
  split; [intros fs f; apply read_bytes_font_path|].
  split; [intros f Hf; unfold font_path; rewrite Hf; reflexivity|].
  split.
  - intros f Hf. unfold font_path, path_join. rewrite Hf, has_slash_not_absolute by done.
    destruct (basepath rb) as [|c rest] eqn:Eb.
    + exists ""; split; [left; reflexivity | reflexivity].
    + destruct (negb (ends_with_slash (String c rest))).
      * exists "/"; split; [right; reflexivity | reflexivity].
      * exists ""; split; [left; reflexivity | reflexivity].
  - intros fs1 fs2 dflt ffs. unfold reg_fonts. revert dflt.
    induction ffs as [|[[n f] t] ffs IH]; intros dflt Hagree; [reflexivity|].
    cbn [fold_left].
    rewrite (resource_font_ext fs1 fs2).
    + apply IH. intros n' f' t' Hin. apply (Hagree n' f' t'). right. exact Hin.
    + rewrite !read_bytes_font_path. apply (Hagree n f t). left. reflexivity.
Qed.

(** The defaults of egui register a font named "Hack"; the counterexample
    below registers another file under that name. *)
Definition fonts_with_hack : FontDefinitions :=
  mkFontDefinitions {[ "Hack" := mkFontData [1] 0 ]} ∅.

(** Claim C10 (counterexample): registering a font under a name that is
    already registered does not add an entry and changes the previous one:
    [BTreeMap::insert] replaces the bytes registered under "Hack". *)
Lemma C10_frame_counterexample :
  ~ (forall (fs : FileSystem) (rb : ResourcesBase) (fonts : FontDefinitions)
            (n f : string) (t : FontFamily) (p : bool) (b : list Z),
       read_bytes fs rb f p = Some b ->
       let fonts' := resource_font fs rb fonts n f t p in
       font_data fonts' !! n = Some (font_data_from_owned b) /\
       base.size (font_data fonts') = S (base.size (font_data fonts)) /\
       (forall k v, font_data fonts !! k = Some v -> font_data fonts' !! k = Some v)).
Proof.
  intros H.
  destruct (H (fun _ => Some [2]) (mkResourcesBase "fonts") fonts_with_hack
              "Hack" "Hack-Regular.ttf" Monospace true [2] eq_refl) as (_ & _ & Hkeep).
  specialize (Hkeep "Hack" (mkFontData [1] 0)).
  unfold fonts_with_hack, resource_font in Hkeep. cbn [read_bytes font_data] in Hkeep.
  rewrite lookup_insert_eq in Hkeep.
  assert (E : Some (font_data_from_owned [2]) = Some (mkFontData [1] 0))
    by (apply Hkeep; apply lookup_singleton_eq).
  discriminate E.
Qed.

(** Claim C10 (amended): when the font file cannot be read, [resource_font]
    leaves the [FontDefinitions] unchanged; when it is read as bytes [b], it
    sets the [font_data] entry of the name to [b] (replacing any previous
    entry of that name), puts the name in front of the family's list (an
    empty list when the family was absent), and leaves every other
    [font_data] entry and every other family unchanged. *)
Theorem C10_resource_font_frame (fs : FileSystem) (rb : ResourcesBase)
    (fonts : FontDefinitions) (n f : string) (t : FontFamily) (p : bool) :
  (read_bytes fs rb f p = None -> resource_font fs rb fonts n f t p = fonts) /\
  (forall b, read_bytes fs rb f p = Some b ->
     let fonts' := resource_font fs rb fonts n f t p in
     font_data fonts' !! n = Some (font_data_from_owned b) /\
     (forall k, k <> n -> font_data fonts' !! k = font_data fonts !! k) /\
     families fonts' !! t = Some (n :: default [] (families fonts !! t)) /\
     (forall t', t' <> t -> families fonts' !! t' = families fonts !! t')).
Proof.
  unfold resource_font. split.
  - intros E. rewrite E. reflexivity.
  - intros b E. rewrite E. cbn [font_data families].
    split; [apply lookup_insert_eq|].
    split; [intros k Hk; apply lookup_insert_ne; congruence|].
    split; [apply lookup_insert_eq|].
    intros t' Ht. apply lookup_insert_ne. congruence.
Qed.

(* ================================================================== *)
(** * Further properties of lib.rs *)

(** ** Rebuilding an image buffer pixel by pixel *)

(** The four bytes at offset [i] of a flat buffer. *)
Definition quad (l : list Z) (i : nat) : list Z :=
  [nth i l 0; nth (S i) l 0; nth (S (S i)) l 0; nth (S (S (S i))) l 0].

Lemma quad_take_drop (l : list Z) (i : nat) :
  (i + 4 <= length l)%nat -> quad l i = take 4 (drop i l).
Proof.
  intros Hi. unfold quad.
  replace (nth i l 0) with (nth 0 (drop i l) 0) by (rewrite nth_skipn; f_equal; lia).
  replace (nth (S i) l 0) with (nth 1 (drop i l) 0) by (rewrite nth_skipn; f_equal; lia).
  replace (nth (S (S i)) l 0) with (nth 2 (drop i l) 0)
    by (rewrite nth_skipn; f_equal; lia).
  replace (nth (S (S (S i))) l 0) with (nth 3 (drop i l) 0)
    by (rewrite nth_skipn; f_equal; lia).
  assert (Hd : (4 <= length (drop i l))%nat) by (rewrite length_drop; lia).
  destruct (drop i l) as [|a [|b [|c [|d rest]]]]; simpl in Hd; try lia.
  reflexivity.
Qed.

Lemma flat_map_quads (l : list Z) (c m n : nat) :
  (4 * (c + m + n) <= length l)%nat ->
  flat_map (fun j => quad l (4 * (c + j))) (seq m n) = take (4 * n) (drop (4 * (c + m)) l).
Proof.
  revert m. induction n as [|n IH]; intros m Hle; [reflexivity|].
  cbn [seq flat_map]. rewrite IH by lia.
  rewrite quad_take_drop by lia.
  replace (4 * S n)%nat with (4 + 4 * n)%nat by lia.
  rewrite <- take_take_drop, drop_drop.
  replace (4 * (c + m) + 4)%nat with (4 * (c + S m))%nat by lia. reflexivity.
Qed.

Lemma flat_map_rows (l : list Z) (w m n : nat) :
  (4 * w * (m + n) <= length l)%nat ->
  flat_map (fun y => take (4 * w) (drop (4 * (y * w)) l)) (seq m n)
    = take (4 * w * n) (drop (4 * w * m) l).
Proof.
  revert m. induction n as [|n IH]; intros m Hle.
  - rewrite Nat.mul_0_r. reflexivity.
  - cbn [seq flat_map]. rewrite IH by lia.
    replace (4 * w * S m)%nat with (4 * w * m + 4 * w)%nat by lia.
    rewrite <- drop_drop.
    replace (4 * (m * w))%nat with (4 * w * m)%nat by lia.
    rewrite take_take_drop. f_equal. lia.
Qed.

Lemma flat_map_zrange {B} (g : Z -> list B) (n : Z) :
  flat_map g (zrange n) = flat_map (fun j => g (Z.of_nat j)) (seq 0 (Z.to_nat n)).
Proof.
  unfold zrange. induction (seq 0 (Z.to_nat n)) as [|x s IH]; simpl; [done|].
  rewrite IH. reflexivity.
Qed.

Lemma flat_map_ext_in {A B} (f g : A -> list B) (l : list A) :
  (forall x, In x l -> f x = g x) -> flat_map f l = flat_map g l.
Proof.
  induction l as [|x l IH]; intros Hfg; simpl; [done|].
  rewrite (Hfg x) by (left; done). rewrite IH; [done|]. intros y Hy. apply Hfg. right. done.
Qed.

(** Reading every pixel of a well-formed buffer with [get_pixel], row by
    row, gives the buffer back. *)
Lemma from_fn_get_pixel (im : RgbaImage) :
  0 <= img_width im -> 0 <= img_height im ->
  Z.of_nat (length (img_data im)) = img_width im * img_height im * 4 ->
  from_fn (img_width im) (img_height im) (get_pixel im) = im.
Proof.
  destruct im as [w h l]; cbn [img_width img_height img_data]. intros Hw Hh Hlen.
  assert (Hl : length l = (4 * Z.to_nat w * Z.to_nat h)%nat) by lia.
  unfold from_fn. f_equal.
  rewrite flat_map_zrange.
  transitivity (flat_map (fun y => take (4 * Z.to_nat w) (drop (4 * (y * Z.to_nat w)) l))
                  (seq 0 (Z.to_nat h))).
  - apply flat_map_ext_in. intros y Hy. apply in_seq in Hy.
    rewrite flat_map_zrange.
    assert (E := flat_map_quads l (y * Z.to_nat w) 0 (Z.to_nat w)).
    rewrite !Nat.add_0_r in E. rewrite <- E by nia.
    apply flat_map_ext. intros j. unfold get_pixel, quad, rgba_bytes; cbn [img_width img_data].
    replace (Z.to_nat ((Z.of_nat y * w + Z.of_nat j) * 4))
      with (4 * (y * Z.to_nat w + j))%nat by lia.
    reflexivity.
  - rewrite flat_map_rows by lia. rewrite Nat.mul_0_r, drop_0. apply take_ge. lia.
Qed.

(** Converting the bytes of opaque-or-clear pixels gives the pixels back. *)
Lemma color_image_from_opaque_bytes fp (w h : Z) (ps : list Rgba8) :
  Z.of_nat (length ps) = w * h -> Forall opaque_or_clear ps ->
  color_image_from_dynamic_image fp (ImageRgba8 (mkRgbaImage w h (flat_map rgba_bytes ps)))
    = Some (mkColorImage (w, h) ps).
Proof.
  intros Hlen Hop.
  unfold color_image_from_dynamic_image, color_image_from_rgba_unmultiplied; simpl.
  rewrite length_flat_map_rgba_bytes.
  replace (w * h * 4 =? Z.of_nat (4 * length ps)) with true
    by (symmetry; apply Z.eqb_eq; lia).
  rewrite chunks_unmultiplied_flat_map by done. reflexivity.
Qed.

(** [resized_copy_from] to the source's own size returns the source: the
    fill dimensions are the source's, [imageops::resize] copies, and the crop
    keeps everything; this holds for every filter (valid source with at
    least one pixel, dimensions below 2^32, opaque-or-clear pixels). *)
Theorem resized_copy_from_own_size (fp : FloatPaths) (src : ColorImage) (f : FilterType) :
  valid_color_image src -> pixels src <> [] ->
  width src < 2 ^ 32 -> height src < 2 ^ 32 ->
  Forall opaque_or_clear (pixels src) ->
  resized_copy_from fp (width src, height src) src f = Some src.
Proof.
  intros Hv Hne Hw Hh Hop.
  assert (HW : 0 < width src /\ 0 < height src).
  { destruct Hv as (? & ? & Hlen & _). destruct (pixels src); [congruence|].
    simpl in Hlen. nia. }
  pose proof Hv as (_ & _ & Hlen & _).
  unfold resized_copy_from. rewrite dynamic_image_from_valid by assumption.
  cbn [fst snd]. rewrite !as_u32_small by lia.
  unfold resize_to_fill. cbn [into_rgba8 img_width img_height].
  assert (Hd : resize_dimensions (width src) (height src) (width src) (height src) true
               = (width src, height src)).
  { unfold resize_dimensions.
    replace (height src * width src <=? width src * height src) with true
      by (symmetry; apply Z.leb_le; lia).
    assert (E1 : width src <= round_div (width src * width src) (width src) <= width src)
      by (apply round_div_bounds; lia).
    assert (E2 : height src <= round_div (height src * width src) (width src) <= height src)
      by (apply round_div_bounds; lia).
    replace (round_div (width src * width src) (width src)) with (width src) by lia.
    replace (round_div (height src * width src) (width src)) with (height src) by lia.
    rewrite (Z.max_l (width src)), (Z.max_l (height src)) by lia.
    unfold u32_max.
    replace (width src >? 2 ^ 32 - 1) with false by (symmetry; rewrite Z.gtb_ltb; apply Z.ltb_ge; lia).
    replace (height src >? 2 ^ 32 - 1) with false by (symmetry; rewrite Z.gtb_ltb; apply Z.ltb_ge; lia).
    reflexivity. }
  rewrite Hd. cbv beta iota zeta.
  set (im := mkRgbaImage (width src) (height src) (flat_map rgba_bytes (pixels src))).
  assert (R : from_fn (width src) (height src) (get_pixel im) = im).
  { apply (from_fn_get_pixel im); cbn; try lia.
    rewrite length_flat_map_rgba_bytes. lia. }
  assert (Ers : imageops_resize fp im (width src) (height src) f = im).
  { unfold imageops_resize. cbn [im img_width img_height]. rewrite !Z.eqb_refl.
    exact R. }
  rewrite Ers. cbn [im img_width img_height].
  replace (width src * height src >? width src * height src) with false
    by (symmetry; rewrite Z.gtb_ltb; apply Z.ltb_ge; lia).
  rewrite Z.ltb_irrefl, Z.sub_diag, Zdiv_0_l.
  rewrite imageops_crop_inside by (cbn [im img_width img_height]; lia).
  change (fun i j => get_pixel im (0 + i) (0 + j)) with (get_pixel im).
  rewrite R. subst im.
  rewrite color_image_from_opaque_bytes by assumption.
  destruct src as [[w h] ps]. reflexivity.
Qed.

Lemma resized_copy_from_own_size_witness :
  resized_copy_from sample_fp (width quadrants_4x4, height quadrants_4x4) quadrants_4x4
    CatmullRom = Some quadrants_4x4.
Proof.
  assert (Hv : valid_color_image quadrants_4x4) by prove_valid.
  apply resized_copy_from_own_size; [exact Hv | discriminate
    | vm_compute; reflexivity | vm_compute; reflexivity |].
  repeat constructor; left; reflexivity.
Defined.

Lemma resized_copy_from_zero_target_witness :
  resized_copy_from sample_fp (0, 0) quadrants_4x4 Gaussian = Some (mkColorImage (0, 0) []).
Proof.
  assert (Hv : valid_color_image quadrants_4x4) by prove_valid.
  apply resized_copy_from_zero_target;
    [exact Hv | discriminate | vm_compute; reflexivity | vm_compute; reflexivity].
Defined.

(** ** The resource facade *)

(** When the file decodes to a well-shaped RGBA8 image of [w] x [h],
    [resource_img] returns a ColorImage of size (w, h) with w * h pixels and
    [resource_icon] returns the same image's bytes with the same [w] and
    [h]. *)
Theorem resource_img_icon_agree (fp : FloatPaths) (fs : FileSystem) (load : Decoder)
    (rb : ResourcesBase) (f : string) (p : bool) (b : list Z) (im : RgbaImage) :
  read_bytes fs rb f p = Some b -> load b = Some (ImageRgba8 im) ->
  0 <= img_width im -> 0 <= img_height im ->
  Z.of_nat (length (img_data im)) = img_width im * img_height im * 4 ->
  exists c, resource_img fp fs load rb f p = Some c /\
    size c = (img_width im, img_height im) /\
    Z.of_nat (length (pixels c)) = img_width im * img_height im /\
    resource_icon fs load rb f p = Some (mkIconData (img_data im) (img_width im) (img_height im)).
Proof.
  intros Hr Hd Hw Hh Hlen. unfold resource_img, resource_icon. rewrite Hr, Hd.
  unfold color_image_from_dynamic_image, color_image_from_rgba_unmultiplied.
  cbn [into_rgba8 fst snd]. rewrite <- Hlen, Z.eqb_refl.
  eexists; split; [reflexivity|]. cbn [size pixels]. split; [reflexivity|]. split.
  - rewrite chunks_unmultiplied_length, Nat2Z.inj_div, Hlen.
    change (Z.of_nat 4) with 4. rewrite Z.div_mul by lia. reflexivity.
  - reflexivity.
Qed.

Lemma resource_img_icon_agree_witness :
  exists c, resource_img sample_fp (fun _ => Some [7]) (fun _ => Some (ImageRgba8 (mkRgbaImage 1 1 [9; 8; 7; 255])))
              (mkResourcesBase "res") "a.png" true = Some c /\
    size c = (1, 1) /\ Z.of_nat (length (pixels c)) = 1 * 1 /\
    resource_icon (fun _ => Some [7]) (fun _ => Some (ImageRgba8 (mkRgbaImage 1 1 [9; 8; 7; 255])))
      (mkResourcesBase "res") "a.png" true = Some (mkIconData [9; 8; 7; 255] 1 1).
Proof.
  apply (resource_img_icon_agree sample_fp (fun _ => Some [7])
           (fun _ => Some (ImageRgba8 (mkRgbaImage 1 1 [9; 8; 7; 255])))
           (mkResourcesBase "res") "a.png" true [7] (mkRgbaImage 1 1 [9; 8; 7; 255]));
    reflexivity || (cbn; lia).
Defined.

(** ** Font registration *)

(** An entry of [reg_fonts] whose file cannot be read leaves the font
    definitions as they are: the result is that of the list without it. *)
Theorem reg_fonts_skip_unreadable (fs : FileSystem) (rb : ResourcesBase)
    (dflt : FontDefinitions) (ffs1 ffs2 : list (string * string * FontFamily))
    (n f : string) (t : FontFamily) :
  fs (font_path rb f) = None ->
  reg_fonts fs rb dflt (ffs1 ++ (n, f, t) :: ffs2) = reg_fonts fs rb dflt (ffs1 ++ ffs2).
Proof.
  intros Hn. unfold reg_fonts. rewrite !fold_left_app. cbn [fold_left].
  f_equal. unfold resource_font at 1. rewrite read_bytes_font_path, Hn. reflexivity.
Qed.

Lemma reg_fonts_skip_unreadable_witness :
  reg_fonts (fun _ => None) (mkResourcesBase "res") (mkFontDefinitions empty empty)
    ([] ++ ("a", "a.ttf", Proportional) :: [("b", "/b.ttf", Monospace)]) =
  reg_fonts (fun _ => None) (mkResourcesBase "res") (mkFontDefinitions empty empty)
    ([] ++ [("b", "/b.ttf", Monospace)]).
Proof. apply reg_fonts_skip_unreadable. reflexivity. Defined.

Lemma reg_fonts_font_data_keep (fs : FileSystem) (rb : ResourcesBase)
    (ffs : list (string * string * FontFamily)) (acc : FontDefinitions) (n : string) :
  (forall n' f' t', In (n', f', t') ffs -> n' = n -> fs (font_path rb f') = None) ->
  font_data (reg_fonts fs rb acc ffs) !! n = font_data acc !! n.
Proof.
  revert acc. induction ffs as [|[[n' f'] t'] rest IH]; intros acc Hk; [reflexivity|].
  unfold reg_fonts in *. cbn [fold_left]. rewrite IH.
  2:{ intros a b c Hin. apply (Hk a b c). right. exact Hin. }
  unfold resource_font. rewrite read_bytes_font_path.
  destruct (fs (font_path rb f')) as [b|] eqn:E; [|reflexivity].
  cbn [font_data]. destruct (decide (n' = n)) as [->|Hne].
  - rewrite (Hk n f' t') in E; [discriminate | left; reflexivity | reflexivity].
  - apply lookup_insert_ne. exact Hne.
Qed.

(** In [reg_fonts], the font data stored under a name comes from the last
    entry of that name whose file can be read. *)
Theorem reg_fonts_font_data_last (fs : FileSystem) (rb : ResourcesBase)
    (dflt : FontDefinitions) (ffs1 ffs2 : list (string * string * FontFamily))
    (n f : string) (t : FontFamily) (b : list Z) :
  fs (font_path rb f) = Some b ->
  (forall n' f' t', In (n', f', t') ffs2 -> n' = n -> fs (font_path rb f') = None) ->
  font_data (reg_fonts fs rb dflt (ffs1 ++ (n, f, t) :: ffs2)) !! n = Some (font_data_from_owned b).
Proof.
  intros Hb Hk. unfold reg_fonts. rewrite fold_left_app. cbn [fold_left].
  change (fold_left _ ffs2 ?a) with (reg_fonts fs rb a ffs2).
  rewrite reg_fonts_font_data_keep by exact Hk.
  unfold resource_font. rewrite read_bytes_font_path, Hb. cbn [font_data].
  apply lookup_insert_eq.
Qed.

Lemma reg_fonts_font_data_last_witness :
  font_data (reg_fonts (fun s => if String.eqb s "res/a.ttf" then Some [1] else None)
               (mkResourcesBase "res") (mkFontDefinitions empty empty)
               ([("a", "/old.ttf", Monospace)] ++ ("a", "a.ttf", Proportional) :: [("a", "/missing.ttf", Proportional)]))
    !! "a" = Some (font_data_from_owned [1]).
Proof.
  apply reg_fonts_font_data_last.
  - reflexivity.
  - intros n' f' t' Hin _. destruct Hin as [Heq|[]]. injection Heq as <- <- <-. reflexivity.
Defined.

(** [reg_fonts] puts the names of the readable entries of a family in front
    of the family's default list, the last entry first; a family that no
    readable entry names keeps its default list (or stays absent). *)
Theorem reg_fonts_families (fs : FileSystem) (rb : ResourcesBase)
    (dflt : FontDefinitions) (ffs : list (string * string * FontFamily)) (t : FontFamily) :
  families (reg_fonts fs rb dflt ffs) !! t =
  match registered_names fs rb t ffs with
  | [] => families dflt !! t
  | ns => Some (ns ++ default [] (families dflt !! t))
  end.
Proof.
  revert dflt. induction ffs as [|[[n f] t'] rest IH]; intros dflt; [reflexivity|].
  unfold reg_fonts in *. cbn [fold_left registered_names]. rewrite IH.
  unfold resource_font. rewrite read_bytes_font_path.
  destruct (fs (font_path rb f)) as [b|] eqn:E;
    destruct (decide (t' = t)) as [->|Hne]; cbn [families].
  - rewrite lookup_insert_eq. cbn [default].
    destruct (registered_names fs rb t rest) as [|x xs]; [reflexivity|].
    cbn [app]. rewrite <- app_assoc. reflexivity.
  - rewrite lookup_insert_ne by exact Hne. rewrite app_nil_r. reflexivity.
  - rewrite app_nil_r. reflexivity.
  - rewrite app_nil_r. reflexivity.
Qed.

(** ** Nearest resizing copies source pixels *)

(** Every pixel of the buffer [im] satisfies [P]: the buffer is the bytes of
    a list of [w * h] pixels, all satisfying [P]. *)
Definition pixels_satisfy (P : Rgba8 -> Prop) (im : RgbaImage) : Prop :=
  0 <= img_width im /\ 0 <= img_height im /\
  exists l, img_data im = flat_map rgba_bytes l /\
            Z.of_nat (length l) = img_width im * img_height im /\ Forall P l.

Lemma in_zrange (n x : Z) : In x (zrange n) <-> 0 <= x < n.
Proof.
  unfold zrange. rewrite in_map_iff. split.
  - intros (k & <- & Hk). apply in_seq in Hk. lia.
  - intros Hx. exists (Z.to_nat x). split; [lia|]. apply in_seq. lia.
Qed.

Lemma flat_map_rgba_bytes_nth (l : list Rgba8) (k j : nat) (p : Rgba8) (d : Z) :
  l !! k = Some p -> (j < 4)%nat ->
  nth (4 * k + j) (flat_map rgba_bytes l) d = nth j (rgba_bytes p) d.
Proof.
  revert k. induction l as [|q l IH]; intros k Hk Hj; [discriminate|].
  destruct k as [|k].
  - injection Hk as ->. cbn [flat_map]. rewrite app_nth1; [f_equal; lia|].
    cbn. lia.
  - cbn [flat_map]. rewrite app_nth2; cbn [length rgba_bytes].
    + replace (4 * S k + j - 4)%nat with (4 * k + j)%nat by lia. apply IH; assumption.
    + lia.
Qed.

Lemma get_pixel_satisfy (P : Rgba8 -> Prop) (im : RgbaImage) (x y : Z) :
  pixels_satisfy P im -> 0 <= x < img_width im -> 0 <= y < img_height im ->
  P (get_pixel im x y).
Proof.
  intros (Hw & Hh & l & Hd & Hlen & Hall) Hx Hy.
  set (k := Z.to_nat (y * img_width im + x)).
  assert (Hk : (k < length l)%nat) by (subst k; nia).
  destruct (lookup_lt_is_Some_2 l k Hk) as [p Hp].
  assert (E : get_pixel im x y = p).
  { unfold get_pixel. rewrite Hd.
    replace (Z.to_nat ((y * img_width im + x) * 4)) with (4 * k + 0)%nat by (subst k; lia).
    replace (S (4 * k + 0)) with (4 * k + 1)%nat by lia.
    replace (S (4 * k + 1)) with (4 * k + 2)%nat by lia.
    replace (S (4 * k + 2)) with (4 * k + 3)%nat by lia.
    rewrite !(flat_map_rgba_bytes_nth l k _ p) by (assumption || lia).
    destruct p; reflexivity. }
  rewrite E. exact (Forall_lookup_1 _ _ _ _ Hall Hp).
Qed.

Lemma flat_map_rgba_bytes_rows (g : Z -> Z -> Rgba8) (w : Z) (ys : list Z) :
  flat_map (fun y => flat_map (fun x => rgba_bytes (g x y)) (zrange w)) ys =
  flat_map rgba_bytes (flat_map (fun y => map (fun x => g x y) (zrange w)) ys).
Proof.
  induction ys as [|y ys IH]; [reflexivity|]. cbn [flat_map].
  rewrite flat_map_app, IH. f_equal. clear IH.
  induction (zrange w) as [|x xs IHx]; [reflexivity|]. cbn [flat_map map].
  rewrite IHx. reflexivity.
Qed.

Lemma from_fn_satisfy (P : Rgba8 -> Prop) (w h : Z) (g : Z -> Z -> Rgba8) :
  0 <= w -> 0 <= h ->
  (forall x y, 0 <= x < w -> 0 <= y < h -> P (g x y)) ->
  pixels_satisfy P (from_fn w h g).
Proof.
  intros Hw Hh Hg. unfold pixels_satisfy, from_fn. cbn [img_width img_height img_data].
  split; [lia|]. split; [lia|].
  exists (flat_map (fun y => map (fun x => g x y) (zrange w)) (zrange h)).
  split; [apply flat_map_rgba_bytes_rows|]. split.
  - rewrite (length_flat_map_const _ (Z.to_nat w)).
    + unfold zrange. rewrite length_map, length_seq. lia.
    + intros y. unfold zrange. rewrite !length_map, length_seq. reflexivity.
  - apply List.Forall_forall. intros q Hq.
    apply in_flat_map in Hq as (y & Hy & Hq). apply in_map_iff in Hq as (x & <- & Hx).
    apply in_zrange in Hx, Hy. apply Hg; assumption.
Qed.

Lemma nearest_left_range (in_len out_len o : Z) :
  0 < in_len -> 0 < out_len -> 0 <= o -> 0 <= nearest_left in_len out_len o < in_len.
Proof.
  intros Hi Ho Ho'. unfold nearest_left.
  assert (0 <= (2 * o + 1) * in_len / (2 * out_len)) by (apply Z.div_pos; nia).
  lia.
Qed.

Lemma imageops_resize_nearest_satisfy fp (P : Rgba8 -> Prop) (im : RgbaImage) (nw nh : Z) :
  pixels_satisfy P im -> 0 < img_width im -> 0 < img_height im -> 0 <= nw -> 0 <= nh ->
  pixels_satisfy P (imageops_resize fp im nw nh Nearest).
Proof.
  intros Him Hw Hh Hnw Hnh. unfold imageops_resize.
  destruct ((nw =? img_width im) && (nh =? img_height im)).
  - apply from_fn_satisfy; [lia | lia |]. intros x y Hx Hy.
    apply get_pixel_satisfy; assumption.
  - unfold horizontal_sample_nearest, vertical_sample_nearest.
    apply from_fn_satisfy; cbn [img_width img_height from_fn]; [lia | lia |].
    intros x y Hx Hy.
    apply get_pixel_satisfy; cbn [img_width img_height from_fn].
    + apply from_fn_satisfy; [lia | lia |]. intros x' y' Hx' Hy'.
      apply get_pixel_satisfy; [assumption | lia |].
      apply nearest_left_range; lia.
    + apply nearest_left_range; lia.
    + lia.
Qed.

Lemma imageops_crop_satisfy (P : Rgba8 -> Prop) (im : RgbaImage) (x y w h : Z) :
  pixels_satisfy P im -> 0 <= x -> 0 <= y -> 0 <= w -> 0 <= h ->
  pixels_satisfy P (imageops_crop im x y w h).
Proof.
  intros Him Hx Hy Hw Hh.
  pose proof Him as (HW & HH & _).
  unfold imageops_crop. apply from_fn_satisfy; [lia | lia |].
  intros i j Hi Hj. apply get_pixel_satisfy; [assumption | lia | lia].
Qed.

Lemma resize_dimensions_pos (W H w h : Z) (fill : bool) :
  1 <= fst (resize_dimensions W H w h fill) /\ 1 <= snd (resize_dimensions W H w h fill).
Proof.
  unfold resize_dimensions.
  destruct fill, (h * W <=? w * H); cbn [fst snd];
    repeat match goal with |- context [if ?c then _ else _] => destruct c end;
    cbn [fst snd]; unfold u32_max; lia.
Qed.

Lemma resize_to_fill_nearest_satisfy fp (P : Rgba8 -> Prop) (d d' : DynamicImage) (nw nh : Z) :
  pixels_satisfy P (into_rgba8 d) ->
  0 < img_width (into_rgba8 d) -> 0 < img_height (into_rgba8 d) ->
  0 <= nw -> 0 <= nh ->
  resize_to_fill fp d nw nh Nearest = Some d' ->
  pixels_satisfy P (into_rgba8 d').
Proof.
  intros Hd Hw Hh Hnw Hnh. unfold resize_to_fill.
  pose proof (resize_dimensions_pos (img_width (into_rgba8 d)) (img_height (into_rgba8 d))
                nw nh true) as Hpos.
  destruct (resize_dimensions _ _ nw nh true) as [w2 h2]. cbn [fst snd] in Hpos.
  assert (Hi : pixels_satisfy P (imageops_resize fp (into_rgba8 d) w2 h2 Nearest))
    by (apply imageops_resize_nearest_satisfy; assumption || lia).
  destruct (imageops_resize_dims fp (into_rgba8 d) w2 h2 Nearest) as [Eiw Eih].
  set (I := imageops_resize fp (into_rgba8 d) w2 h2 Nearest) in *.
  cbv zeta. rewrite Eiw, Eih.
  destruct (_ >? _).
  - destruct (Z.ltb_spec h2 nh); [discriminate|]. intros E. injection E as <-.
    cbn [into_rgba8]. apply imageops_crop_satisfy; try assumption; try lia.
    apply Z.div_pos; lia.
  - destruct (Z.ltb_spec w2 nw); [discriminate|]. intros E. injection E as <-.
    cbn [into_rgba8]. apply imageops_crop_satisfy; try assumption; try lia.
    apply Z.div_pos; lia.
Qed.

Lemma chunks_unmultiplied_flat_map_map fp (ps : list Rgba8) :
  chunks_unmultiplied fp (flat_map rgba_bytes ps) =
  map (fun p => color32_from_rgba_unmultiplied fp (px_r p) (px_g p) (px_b p) (px_a p)) ps.
Proof. induction ps as [|p ps IH]; [reflexivity|]. cbn. rewrite IH. reflexivity. Qed.

(** With the [Nearest] filter, every pixel of the result of
    [resized_copy_from] is a pixel of the source passed through
    [Color32::from_rgba_unmultiplied]: nearest resizing and the crop only
    copy pixels. *)
Lemma resized_copy_from_nearest_copies (fp : FloatPaths) (wh : Z * Z) (src c : ColorImage) :
  valid_color_image src -> width src < 2 ^ 32 -> height src < 2 ^ 32 ->
  resized_copy_from fp wh src Nearest = Some c ->
  Forall (fun q => exists p, In p (pixels src) /\
            q = color32_from_rgba_unmultiplied fp (px_r p) (px_g p) (px_b p) (px_a p))
         (pixels c).
Proof.
  intros Hv Hw32 Hh32. unfold resized_copy_from.
  destruct (pixels src) as [|p0 ps] eqn:Ep.
  { unfold dynamic_image_from. rewrite Ep. destruct (width src), (height src); discriminate. }
  assert (HW : 0 < width src /\ 0 < height src).
  { destruct Hv as (? & ? & Hlen & _). rewrite Ep in Hlen. simpl in Hlen. nia. }
  rewrite dynamic_image_from_valid by (assumption || congruence).
  rewrite <- Ep.
  set (im0 := mkRgbaImage (width src) (height src) (flat_map rgba_bytes (pixels src))).
  assert (H0 : pixels_satisfy (fun p => In p (pixels src)) (into_rgba8 (ImageRgba8 im0))).
  { unfold pixels_satisfy, im0; cbn [into_rgba8 img_width img_height img_data]. split; [lia|]. split; [lia|]. exists (pixels src). split; [reflexivity|].
    split; [apply Hv|]. apply List.Forall_forall. tauto. }
  destruct (resize_to_fill fp (ImageRgba8 im0) _ _ Nearest) as [d'|] eqn:Er; [|discriminate].
  apply (resize_to_fill_nearest_satisfy fp _ _ _ _ _ H0) in Er;
    [| cbn [im0 into_rgba8 img_width]; lia | cbn [im0 into_rgba8 img_height]; lia
    | apply Z.mod_pos_bound; lia | apply Z.mod_pos_bound; lia].
  destruct d' as [im]. cbn [into_rgba8] in Er.
  destruct Er as (_ & _ & l & Hd & _ & Hall).
  unfold color_image_from_dynamic_image, color_image_from_rgba_unmultiplied.
  cbn [into_rgba8]. destruct (_ =? _); [|discriminate].
  intros E. injection E as <-. cbn [pixels]. rewrite Hd, chunks_unmultiplied_flat_map_map.
  apply Forall_map. apply (Forall_impl _ _ _ Hall). intros p Hp. exists p. split; [exact Hp|reflexivity].
Qed.

(** With the [Nearest] filter, [resized_copy_from] never creates a colour:
    for a well-formed source whose pixels are opaque or fully transparent,
    every pixel of the result is a pixel of the source. *)
Theorem resized_copy_from_nearest_source_pixels (fp : FloatPaths) (wh : Z * Z)
    (src c : ColorImage) :
  valid_color_image src -> width src < 2 ^ 32 -> height src < 2 ^ 32 ->
  Forall opaque_or_clear (pixels src) ->
  resized_copy_from fp wh src Nearest = Some c ->
  Forall (fun q => In q (pixels src)) (pixels c).
Proof.
  intros Hv Hw Hh Hop Hr.
  apply (Forall_impl _ _ _ (resized_copy_from_nearest_copies fp wh src c Hv Hw Hh Hr)).
  intros q (p & Hp & ->).
  rewrite color32_from_rgba_unmultiplied_keep; [exact Hp|].
  exact (proj1 (List.Forall_forall _ _) Hop p Hp).
Qed.

Lemma resized_copy_from_nearest_source_pixels_witness :
  resized_copy_from sample_fp (3, 2) quadrants_4x4 Nearest =
    Some (mkColorImage (3, 2) [red; green; green; blue; yellow; yellow]) /\
  Forall (fun q => In q (pixels quadrants_4x4)) [red; green; green; blue; yellow; yellow].
Proof.
  assert (Hv : valid_color_image quadrants_4x4) by prove_valid.
  assert (Hr : resized_copy_from sample_fp (3, 2) quadrants_4x4 Nearest =
                 Some (mkColorImage (3, 2) [red; green; green; blue; yellow; yellow]))
    by (vm_compute; reflexivity).
  split; [exact Hr|].
  apply (resized_copy_from_nearest_source_pixels sample_fp (3, 2) quadrants_4x4
           (mkColorImage (3, 2) [red; green; green; blue; yellow; yellow]) Hv);
    [vm_compute; reflexivity | vm_compute; reflexivity | | exact Hr].
  repeat constructor; left; reflexivity.
Defined.
